(** * BugBashPro: sagas, reducers and view helpers

  A shallow embedding of the bug bash details saga
  (loadBugBashDetails / updateBugBashDetails), the identity people
  picker provider, the active work item reducer, the bug bash view
  header and the bug bash item table cell, with the properties the
  specification states about them. *)

From stdpp Require Import base strings list gmap.

(** ** Shared contracts *)

(** Modelled from the spec: the enum LoadStatus of Common/Contracts,
    which is not among the files.  The saga compares against [Loading],
    [Updating], [Ready] and [UpdateFailed]; [NotLoaded] and [LoadFailed]
    are the two statuses an entity has before a load and after a load
    that failed. *)
Inductive LoadStatus : Type :=
| NotLoaded
| Loading
| Ready
| LoadFailed
| Updating
| UpdateFailed.

#[global] Instance LoadStatus_eq_dec : EqDecision LoadStatus.
Proof. solve_decision. Defined.

(** A thrown JavaScript [Error]; the handlers only read [e.message]. *)
Record JsError : Type := mkError { message : string }.

(** ** The bug bash details saga *)

Module DetailsSaga.

Section Saga.

(** BugBashPro/Shared/Contracts ILongText: the saga passes it around
    and never looks inside. *)
Context {ILongText : Type}.

(** BugBashDetailActions, as the saga uses them: the two request
    actions it takes, with the payload it reads from each, and the five
    actions it puts, with the arguments it gives their creators. *)
Inductive BugBashDetailActions : Type :=
  | BugBashDetailsLoadRequested (bugBashId : string)
  | BugBashDetailsUpdateRequested (bugBashId : string) (bugBashDetails : ILongText)
  | beginLoadBugBashDetails (bugBashId : string)
  | bugBashDetailsLoaded (bugBashId : string) (details : ILongText)
  | beginUpdateBugBashDetails (bugBashId : string) (bugBashDetails : ILongText)
  | BugBashDetailsUpdated (bugBashId : string) (updatedDetails : ILongText)
  | BugBashDetailsUpdateFailed (bugBashId : string) (bugBashDetails : ILongText) (error : string).

(** The entity an action is about. *)
Definition actionBugBashId (a : BugBashDetailActions) : string :=
  match a with
  | BugBashDetailsLoadRequested i
  | BugBashDetailsUpdateRequested i _
  | beginLoadBugBashDetails i
  | bugBashDetailsLoaded i _
  | beginUpdateBugBashDetails i _
  | BugBashDetailsUpdated i _
  | BugBashDetailsUpdateFailed i _ _ => i
  end.

(** The two remote functions of ./DataSource reached through [call]. *)
Inductive RemoteCall : Type :=
  | fetchBugBashDetailsAsync (bugBashId : string)
  | addOrUpdateDetailsAsync (bugBashDetails : ILongText).

(** A generator function body, as the tree of its yields.  A [call]
    is resumed either with the value the promise resolved to
    ([next]) or with the error it rejected with ([throw]); outside a
    [try] block the latter leaves the generator ([Throw]).  A [select]
    and a [put] are resumed with their result only: the selector and
    the reducer they run are pure functions. *)
Inductive SagaIterator : Type :=
  | Return
  | Throw (e : JsError)
  | YieldSelect (bugBashId : string) (next : LoadStatus → SagaIterator)
  | YieldPut (a : BugBashDetailActions) (next : SagaIterator)
  | YieldCall (c : RemoteCall)
      (next : ILongText → SagaIterator) (throw : JsError → SagaIterator).

(** function* loadBugBashDetails(action) *)
Definition loadBugBashDetails (bugBashId : string) : SagaIterator :=
  YieldSelect bugBashId (λ status,
    if bool_decide (status ≠ Loading) && bool_decide (status ≠ Updating) then
      YieldPut (beginLoadBugBashDetails bugBashId)
        (YieldCall (fetchBugBashDetailsAsync bugBashId)
           (λ details, YieldPut (bugBashDetailsLoaded bugBashId details) Return)
           (λ e, Throw e))
    else Return).

(** function* updateBugBashDetails(action) *)
Definition updateBugBashDetails (bugBashId : string) (bugBashDetails : ILongText)
  : SagaIterator :=
  YieldSelect bugBashId (λ status,
    if bool_decide (status = Ready) || bool_decide (status = UpdateFailed) then
      YieldPut (beginUpdateBugBashDetails bugBashId bugBashDetails)
        (YieldCall (addOrUpdateDetailsAsync bugBashDetails)
           (λ updatedDetails,
              YieldPut (BugBashDetailsUpdated bugBashId updatedDetails) Return)
           (λ e,
              YieldPut (BugBashDetailsUpdateFailed bugBashId bugBashDetails (message e))
                Return))
    else Return).

(** function* bugBashDetailsSaga(): the two [takeEvery] registrations,
    as the handler started for an action, if any. *)
Definition bugBashDetailsSaga (a : BugBashDetailActions) : option SagaIterator :=
  match a with
  | BugBashDetailsLoadRequested bugBashId => Some (loadBugBashDetails bugBashId)
  | BugBashDetailsUpdateRequested bugBashId bugBashDetails =>
      Some (updateBugBashDetails bugBashId bugBashDetails)
  | _ => None
  end.

(** *** The store and the middleware

    The reducer of the details slice and the selector
    getBugBashDetailsStatus live in ./Reducers and ./Selectors; the
    saga is run against any store. *)
Context {Store : Type}.
Variable reducer : Store → BugBashDetailActions → Store.
Variable getBugBashDetailsStatus : Store → string → LoadStatus.

(** How a run of a handler stops: it returned, an error left it, or
    it waits for a remote call. *)
Inductive Outcome : Type :=
  | Finished
  | Escaped (e : JsError)
  | Blocked (c : RemoteCall)
      (next : ILongText → SagaIterator) (throw : JsError → SagaIterator).

Definition outcomeCall (o : Outcome) : option RemoteCall :=
  match o with
  | Blocked c _ _ => Some c
  | _ => None
  end.

(** Runs a handler up to its next [call]: [select] reads the store,
    [put] sends the action through the reducer.  The result is the
    store, the actions put, and how the run stopped.  None of the
    actions the two handlers put is one that [bugBashDetailsSaga]
    takes, so a [put] starts no further handler. *)
Fixpoint run (s : Store) (it : SagaIterator)
  : Store * list BugBashDetailActions * Outcome :=
  match it with
  | Return => (s, [], Finished)
  | Throw e => (s, [], Escaped e)
  | YieldSelect bugBashId next => run s (next (getBugBashDetailsStatus s bugBashId))
  | YieldPut a next =>
      let '(s', acts, o) := run (reducer s a) next in (s', a :: acts, o)
  | YieldCall c next throw => (s, [], Blocked c next throw)
  end.

(** A handler waiting for its remote call. *)
Record Task : Type := mkTask {
  task_entity : string;
  task_call : RemoteCall;
  task_next : ILongText → SagaIterator;
  task_throw : JsError → SagaIterator
}.

(** The store, the handlers in flight, the error that left the saga
    (if any), and every action that reached the store, oldest first. *)
Record System : Type := mkSystem {
  sys_store : Store;
  sys_inflight : list Task;
  sys_escaped : option JsError;
  sys_log : list BugBashDetailActions
}.

Definition initial (s : Store) : System := mkSystem s [] None [].

(** What happens around the application: a component dispatches one
    of the two request actions, or a remote call in flight settles. *)
Inductive Event : Type :=
  | LoadRequested (bugBashId : string)
  | UpdateRequested (bugBashId : string) (bugBashDetails : ILongText)
  | Resolved (i : nat) (value : ILongText)
  | Rejected (i : nat) (e : JsError).

(** Books the result of running a handler of [entity].  An error
    that leaves a handler forked by [takeEvery] bubbles up to the
    root saga, which is aborted with every task it forked. *)
Definition settle (rest : list Task) (esc : option JsError)
    (log : list BugBashDetailActions) (entity : string)
    (r : Store * list BugBashDetailActions * Outcome) : System :=
  let '(s', acts, o) := r in
  match o with
  | Finished => mkSystem s' rest esc (log ++ acts)
  | Escaped e => mkSystem s' [] (Some e) (log ++ acts)
  | Blocked c next throw =>
      mkSystem s' (rest ++ [mkTask entity c next throw]) esc (log ++ acts)
  end.

(** A dispatched action first goes through the reducer, then
    reaches the saga. *)
Definition dispatch (sys : System) (a : BugBashDetailActions) : System :=
  let s1 := reducer (sys_store sys) a in
  match sys_escaped sys, bugBashDetailsSaga a with
  | None, Some it =>
      settle (sys_inflight sys) None (sys_log sys ++ [a]) (actionBugBashId a) (run s1 it)
  | _, _ => mkSystem s1 (sys_inflight sys) (sys_escaped sys) (sys_log sys ++ [a])
  end.

(** The remote call of the [i]-th handler in flight settles: the
    handler leaves the list and runs on from [k], its continuation for
    the value or for the error. *)
Definition resume (sys : System) (i : nat)
    (k : Task → SagaIterator) : System :=
  match sys_inflight sys !! i with
  | Some t =>
      settle (delete i (sys_inflight sys)) (sys_escaped sys) (sys_log sys)
        (task_entity t) (run (sys_store sys) (k t))
  | None => sys
  end.

(** One event, and a sequence of them, oldest first. *)
Definition step (sys : System) (ev : Event) : System :=
  match ev with
  | LoadRequested bugBashId => dispatch sys (BugBashDetailsLoadRequested bugBashId)
  | UpdateRequested bugBashId bugBashDetails =>
      dispatch sys (BugBashDetailsUpdateRequested bugBashId bugBashDetails)
  | Resolved i value => resume sys i (λ t, task_next t value)
  | Rejected i e => resume sys i (λ t, task_throw t e)
  end.

Definition exec (sys : System) (evs : list Event) : System := foldl step sys evs.

End Saga.

Arguments BugBashDetailActions : clear implicits.
Arguments RemoteCall : clear implicits.
Arguments SagaIterator : clear implicits.
Arguments Outcome : clear implicits.
Arguments Task : clear implicits.
Arguments System : clear implicits.
Arguments Event : clear implicits.

(** What the saga relies on from the reducer of the details slice,
    read through the selector: the two begin actions mark their entity
    [Loading] and [Updating], a request action changes no status, and
    an action changes the status of no entity but its own. *)
Record ReducerContract {ILongText Store : Type}
    (reducer : Store → BugBashDetailActions ILongText → Store)
    (getBugBashDetailsStatus : Store → string → LoadStatus) : Prop := {
  begin_load_marks : ∀ s bugBashId,
    getBugBashDetailsStatus (reducer s (beginLoadBugBashDetails bugBashId)) bugBashId
    = Loading;
  begin_update_marks : ∀ s bugBashId bugBashDetails,
    getBugBashDetailsStatus
      (reducer s (beginUpdateBugBashDetails bugBashId bugBashDetails)) bugBashId
    = Updating;
  request_keeps : ∀ s a other,
    is_Some (bugBashDetailsSaga a) →
    getBugBashDetailsStatus (reducer s a) other = getBugBashDetailsStatus s other;
  others_keep : ∀ s a other,
    actionBugBashId a ≠ other →
    getBugBashDetailsStatus (reducer s a) other = getBugBashDetailsStatus s other
}.

Section ReferenceStore.

Context {ILongText : Type}.

(** Modelled from the spec: the reducer of the details slice is not
    among the files.  This one keeps, per bug bash id, the status that
    the name of each action announces, and nothing else. *)
Definition detailsReducer (s : gmap string LoadStatus)
    (a : BugBashDetailActions ILongText) : gmap string LoadStatus :=
  match a with
  | BugBashDetailsLoadRequested _ => s
  | BugBashDetailsUpdateRequested _ _ => s
  | beginLoadBugBashDetails bugBashId => <[bugBashId := Loading]> s
  | bugBashDetailsLoaded bugBashId _ => <[bugBashId := Ready]> s
  | beginUpdateBugBashDetails bugBashId _ => <[bugBashId := Updating]> s
  | BugBashDetailsUpdated bugBashId _ => <[bugBashId := Ready]> s
  | BugBashDetailsUpdateFailed bugBashId _ _ => <[bugBashId := UpdateFailed]> s
  end.

(** Modelled from the spec: the selector getBugBashDetailsStatus is not
    among the files.  An entity the store has no entry for is
    [NotLoaded]. *)
Definition detailsStatus (s : gmap string LoadStatus) (bugBashId : string) : LoadStatus :=
  default NotLoaded (s !! bugBashId).

End ReferenceStore.

(** The invariant of single flight: the handlers in flight are about
    pairwise different entities, each of them is one of the two
    handlers stopped at its remote call, and the status of its entity
    is [Loading] or [Updating]. *)
Section Invariant.

Context {ILongText Store : Type}.
Variable getBugBashDetailsStatus : Store → string → LoadStatus.

Definition loadTask (bugBashId : string) : Task ILongText :=
  mkTask bugBashId (fetchBugBashDetailsAsync bugBashId)
    (λ details, YieldPut (bugBashDetailsLoaded bugBashId details) Return)
    (λ e, Throw e).

Definition updateTask (bugBashId : string) (bugBashDetails : ILongText) : Task ILongText :=
  mkTask bugBashId (addOrUpdateDetailsAsync bugBashDetails)
    (λ updatedDetails, YieldPut (BugBashDetailsUpdated bugBashId updatedDetails) Return)
    (λ e, YieldPut (BugBashDetailsUpdateFailed bugBashId bugBashDetails (message e)) Return).

Definition isUpdate (t : Task ILongText) : Prop :=
  ∃ bugBashDetails, task_call t = addOrUpdateDetailsAsync bugBashDetails.

Definition busy (s : Store) (bugBashId : string) : Prop :=
  getBugBashDetailsStatus s bugBashId = Loading
  ∨ getBugBashDetailsStatus s bugBashId = Updating.

Definition taskOk (s : Store) (t : Task ILongText) : Prop :=
  busy s (task_entity t)
  ∧ (t = loadTask (task_entity t) ∨ ∃ d, t = updateTask (task_entity t) d).

Definition SingleFlight (sys : System ILongText Store) : Prop :=
  NoDup (task_entity <$> sys_inflight sys)
  ∧ Forall (taskOk (sys_store sys)) (sys_inflight sys).

End Invariant.

End DetailsSaga.

(** ** JavaScript values and objects *)

(** A value of type [any]; objects and arrays by reference.  Reading a
    property an object does not have gives [JsUndefined]. *)
Inductive JsValue : Type :=
  | JsUndefined
  | JsNull
  | JsBoolean (b : bool)
  | JsNumber (n : Z)
  | JsString (s : string)
  | JsObject (reference : nat).

(** obj[key] on a plain object. *)
Definition prop (obj : gmap string JsValue) (key : string) : JsValue :=
  default JsUndefined (obj !! key).

(** ** Common/ServiceWrappers/IdentityService.ts *)

Module IdentityService.

Record IIdentity : Type := mkIdentity {
  entityId : string;
  entityType : string;
  originDirectory : string;
  originId : string
}.

(** A settled promise: the value it resolved to, or the reason it was
    rejected with. *)
Inductive Promise (A : Type) : Type :=
  | Resolves (value : A)
  | Rejects (reason : JsError).

Arguments Resolves {A} value.
Arguments Rejects {A} reason.

(** promise.then(onFulfilled), for a callback that returns a promise
    ([≫=]) and for one that returns a plain value ([<$>]). *)
#[global] Instance promise_bind : MBind Promise := λ A B f p,
  match p with
  | Resolves x => f x
  | Rejects e => Rejects e
  end.

#[global] Instance promise_fmap : FMap Promise := λ A B f p,
  match p with
  | Resolves x => Resolves (f x)
  | Rejects e => Rejects e
  end.

(** The two methods of the host's IVssIdentityService that the claims
    are about.  The optional parameters are [None] when left out; the
    sixth parameter of searchIdentitiesAsync, filterIdentity, is never
    passed. *)
Record IVssIdentityService : Type := {
  getIdentityMruAsync : unit → Promise (list IIdentity);
  searchIdentitiesAsync :
    string → option (list string) → option (list string) → option string →
    option JsValue → Promise (list IIdentity)
}.

(** class PeoplePickerProvider: its one field, set by the constructor
    to getIdentityService(). *)
Record PeoplePickerProvider : Type := {
  identityService : Promise IVssIdentityService
}.

(** x[0]: the first element, undefined ([None]) on an empty array. *)
Definition getEntityFromUniqueAttribute (this : PeoplePickerProvider) (entityId : string)
  : Promise (option IIdentity) :=
  identityService this ≫= λ identityService,
    (λ x : list IIdentity, x !! 0%nat) <$>
      searchIdentitiesAsync identityService entityId
        (Some ["user"]) (Some ["ims"; "source"]) (Some "uid") None.

Definition onEmptyInputFocus (this : PeoplePickerProvider) : Promise (list IIdentity) :=
  identityService this ≫= λ identityService,
    (λ identities : list IIdentity, identities) <$>
      getIdentityMruAsync identityService ().

Definition _onSearchPersona (this : PeoplePickerProvider) (searchText : string)
    (items : list IIdentity) : Promise (list IIdentity) :=
  identityService this ≫= λ identityService,
    (λ identities : list IIdentity,
       List.filter
         (λ identity,
            negb (existsb
                    (λ selectedIdentity,
                       bool_decide (entityId selectedIdentity = entityId identity))
                    items))
         identities) <$>
      searchIdentitiesAsync identityService searchText None None None None.

(** selectedItems ? selectedItems : [] — an array, even an empty one,
    is truthy. *)
Definition onFilterIdentities (this : PeoplePickerProvider) (filter : string)
    (selectedItems : option (list IIdentity)) : Promise (list IIdentity) :=
  _onSearchPersona this filter
    (match selectedItems with Some items => items | None => [] end).

(** export async function getIdentityService(), over the module
    variable identityService before the call and what
    SDK.getService would settle to: the promise returned and the
    module variable afterwards.  The host is asked only while the
    variable is unset; the variable is assigned only once the await
    has a value. *)
Definition getIdentityService (cached : option IVssIdentityService)
    (getService : Promise IVssIdentityService)
  : Promise IVssIdentityService * option IVssIdentityService :=
  match cached with
  | Some identityService => (Resolves identityService, Some identityService)
  | None =>
      match getService with
      | Resolves identityService => (Resolves identityService, Some identityService)
      | Rejects e => (Rejects e, None)
      end
  end.

(** constructor(): this.identityService = getIdentityService(). *)
Definition newPeoplePickerProvider (cached : option IVssIdentityService)
    (getService : Promise IVssIdentityService)
  : PeoplePickerProvider * option IVssIdentityService :=
  ({| identityService := (getIdentityService cached getService).1 |},
   (getIdentityService cached getService).2).

End IdentityService.

(** ** The active work item reducer *)

Module ActiveWorkItem.

(** An action as the store hands it to a reducer. *)
Record Action : Type := mkAction {
  action_type : string;
  payload : gmap string JsValue
}.

Section Reducer.

(** ../Actions ActiveWorkItemActionTypes.SetActiveWorkItem and
    ../Contracts defaultActiveWorkItemState. *)
Variable SetActiveWorkItem : string.
Variable defaultActiveWorkItemState : gmap string JsValue.

(** The nine assignments to the draft, in order. *)
Definition setActiveWorkItemFields : list string :=
  ["id"; "rev"; "isNew"; "links"; "queryableFields"; "sortableFields";
   "relationTypes"; "project"; "workItemTypeName"].

(** draft[name] = payload[name] *)
Definition assign (payload : gmap string JsValue) (draft : gmap string JsValue)
    (name : string) : gmap string JsValue :=
  <[name := prop payload name]> draft.

(** produce(state || defaultActiveWorkItemState, draft => ...) *)
Definition activeWorkItemReducer (state : option (gmap string JsValue)) (action : Action)
  : gmap string JsValue :=
  let draft := default defaultActiveWorkItemState state in
  if bool_decide (action_type action = SetActiveWorkItem) then
    foldl (assign (payload action)) draft setActiveWorkItemFields
  else draft.

End Reducer.

End ActiveWorkItem.

(** ** BugBashViewHeader.tsx *)

Module BugBashViewHeader.

(** Resources.Completed, Resources.InProgress, Resources.Scheduled. *)
Inductive Resources : Type := Completed | InProgress | Scheduled.

(** Statuses.Success, Statuses.Running, Statuses.Queued. *)
Inductive Statuses : Type := Success | Running | Queued.

Record IStatusProps : Type := mkStatusProps {
  text : Resources;
  statusType : Statuses
}.

Section Header.

(** BugBashPro/Shared/Helpers isBugBashCompleted and
    isBugBashInProgress, over the bug bash and the time read by
    new Date(). *)
Context {IBugBash Date : Type}.
Variable isBugBashCompleted : IBugBash → Date → bool.
Variable isBugBashInProgress : IBugBash → Date → bool.

(** The statusProps that onRenderHeaderTitle hands to <Status>. *)
Definition onRenderHeaderTitle (bugBash : IBugBash) (currentTime : Date) : IStatusProps :=
  if isBugBashCompleted bugBash currentTime then
    mkStatusProps Completed Success
  else if isBugBashInProgress bugBash currentTime then
    mkStatusProps InProgress Running
  else
    mkStatusProps Scheduled Queued.

End Header.

(** The three action creators bound in [Actions], applied as the
    commands apply them. *)
Inductive HeaderAction : Type :=
  | openBugBashItemPortal (bugBashId : string) (bugBashItemId : option string)
  | openBugBashPortal (bugBashId : string) (readFromCache : bool)
  | loadBugBashItems (bugBashId : string).

(** BugBashViewHeaderCommands.new, .edit and .refresh of ../Constants,
    spread into the items of the command bar. *)
Inductive BugBashViewHeaderCommands : Type := new | edit | refresh.

Record CommandBarItem : Type := mkCommand {
  command : BugBashViewHeaderCommands;
  disabled : bool;
  onActivate : HeaderAction
}.

Record HeaderProps : Type := mkHeader {
  title : IStatusProps;
  commandBarItems : list CommandBarItem
}.

(** The bug bash an action of the header is about. *)
Definition headerActionBugBashId (a : HeaderAction) : string :=
  match a with
  | openBugBashItemPortal bugBashId _
  | openBugBashPortal bugBashId _
  | loadBugBashItems bugBashId => bugBashId
  end.

Section View.

Context {IBugBash Date : Type}.
Variable isBugBashCompleted : IBugBash → Date → bool.
Variable isBugBashInProgress : IBugBash → Date → bool.

(** function BugBashViewHeader(props), over what its hooks return:
    the status of useFilteredBugBashItems, the bug bash of useBugBash
    and the time at which the title is rendered.  The result is the
    error thrown or the props handed to <Header>. *)
Definition BugBashViewHeader (bugBashId : string) (status : LoadStatus)
    (bugBash : option IBugBash) (currentTime : Date) : JsError + HeaderProps :=
  match bugBash with
  | None => inl (mkError "Bug Bash is not initialized yet")
  | Some bugBash =>
      let renderHeaderTitle :=
        onRenderHeaderTitle isBugBashCompleted isBugBashInProgress bugBash currentTime in
      let isLoading := bool_decide (status ≠ Ready) in
      inr (mkHeader renderHeaderTitle
             [mkCommand new isLoading (openBugBashItemPortal bugBashId None);
              mkCommand edit isLoading (openBugBashPortal bugBashId true);
              mkCommand refresh isLoading (loadBugBashItems bugBashId)])
  end.

End View.

End BugBashViewHeader.

(** ** The bug bash item table cell *)

Module BugBashItemCell.

(** WorkItem of the host API: its id and its dictionary of fields. *)
Record WorkItem : Type := mkWorkItem {
  id : Z;
  fields : gmap string JsValue
}.

(** The names in ../Constants and the helpers in ../Helpers that the
    cell uses. *)
Record Constants : Type := mkConstants {
  BugBashItemFieldNames_Title : string;
  BugBashItemFieldNames_Status : string;
  WorkItemFieldNames_ID : string;
  WorkItemFieldNames_Title : string;
  isWorkItemFieldName : string → bool;
  isBugBashItemAccepted : gmap string JsValue → bool
}.

Section Cell.

Variable C : Constants.

(** The first block of onRenderBugBashItemCell: the value shown in
    the cell.  [let value: any] starts out undefined. *)
Definition onRenderBugBashItemCell (key : string) (bugBashItem : gmap string JsValue)
    (acceptedWorkItem : option WorkItem) : JsValue :=
  let isAccepted := isBugBashItemAccepted C bugBashItem in
  if isWorkItemFieldName C key then
    match isAccepted, acceptedWorkItem with
    | true, Some workItem =>
        if bool_decide (key = WorkItemFieldNames_ID C)
        then prop bugBashItem "workItemId"
        else prop (fields workItem) key
    | _, _ => JsUndefined
    end
  else
    match bool_decide (key = BugBashItemFieldNames_Title C) && isAccepted,
          acceptedWorkItem with
    | true, Some workItem => prop (fields workItem) (WorkItemFieldNames_Title C)
    | _, _ =>
        if bool_decide (key ≠ BugBashItemFieldNames_Status C)
        then prop bugBashItem key
        else JsUndefined
    end.

(** "For a non-work-item, non-Status key the value is read from the
    bug bash item itself." *)
Definition readsItemItself (key : string) (bugBashItem : gmap string JsValue)
    (acceptedWorkItem : option WorkItem) : Prop :=
  isWorkItemFieldName C key = false →
  key ≠ BugBashItemFieldNames_Status C →
  onRenderBugBashItemCell key bugBashItem acceptedWorkItem = prop bugBashItem key.

End Cell.

(** Modelled from the spec: ../Constants and ../Helpers are not among
    the files.  The bug bash item names are the property names of the
    item, the work item names are the reference names of the host's
    fields, [isWorkItemFieldName] tells the two apart, and an item is
    accepted once it carries a work item id. *)
Definition constants : Constants := {|
  BugBashItemFieldNames_Title := "title";
  BugBashItemFieldNames_Status := "status";
  WorkItemFieldNames_ID := "System.Id";
  WorkItemFieldNames_Title := "System.Title";
  isWorkItemFieldName := λ key, String.prefix "System." key;
  isBugBashItemAccepted := λ bugBashItem,
    match bugBashItem !! "workItemId" with
    | Some (JsNumber n) => bool_decide (0 < n)%Z
    | _ => false
    end
|}.

(** The further names of ../Constants and ../Helpers that the
    element of the cell depends on. *)
Record ViewConstants : Type := mkViewConstants {
  names : Constants;
  BugBashItemFieldNames_TeamId : string;
  WorkItemFieldNames_State : string;
  WorkItemFieldNames_WorkItemType : string;
  BugBashItemKeyTypes : gmap string string;
  isBugBashItemRejected : gmap string JsValue → bool
}.

(** What renderStatusCell puts into its <Tooltip> and <Icon>. *)
Record StatusCell : Type := mkStatusCell {
  tooltip : string;
  iconName : string;
  color : string
}.

(** The element inside the <SimpleTableCell>, with the props that the
    code computes for it. *)
Inductive CellElement : Type :=
  | StatusElement (cell : StatusCell)
  | WorkItemTitleView (workItemId : Z) (title : JsValue) (workItemTypeName : JsValue)
  | AsyncLinkComponent (key : JsValue) (bugBashId bugBashItemId : JsValue)
      (title : JsValue)
  | WorkItemStateView (stateName : JsValue) (workItemTypeName : JsValue)
  | TeamView (teamId : JsValue)
  | IdentityView (value : JsValue)
  | DateTooltip (value : JsValue)
  | TextTooltip (value : JsValue).

(** A render either gives its element or throws the TypeError of
    reading a property of undefined, at [acceptedWorkItem!]. *)
Inductive Rendering : Type :=
  | TypeError
  | Renders (element : CellElement).

Section View.

Variable V : ViewConstants.

(** function renderStatusCell(bugBashItem) *)
Definition renderStatusCell (bugBashItem : gmap string JsValue) : StatusCell :=
  if isBugBashItemAccepted (names V) bugBashItem then
    mkStatusCell "Accepted" "Accept" "#107c10"
  else if isBugBashItemRejected V bugBashItem then
    mkStatusCell "Rejected" "Cancel" "#da0a00"
  else
    mkStatusCell "Pending" "Clock" "#666666".

(** The second block of onRenderBugBashItemCell: the inner element,
    from the value of the first block. *)
Definition innerElement (key : string) (bugBashItem : gmap string JsValue)
    (acceptedWorkItem : option WorkItem) : Rendering :=
  let value := onRenderBugBashItemCell (names V) key bugBashItem acceptedWorkItem in
  let isAccepted := isBugBashItemAccepted (names V) bugBashItem in
  if bool_decide (key = BugBashItemFieldNames_Status (names V)) then
    Renders (StatusElement (renderStatusCell bugBashItem))
  else if bool_decide (key = BugBashItemFieldNames_Title (names V)) then
    if isAccepted then
      match acceptedWorkItem with
      | Some workItem =>
          Renders (WorkItemTitleView (id workItem) value
                     (prop (fields workItem) (WorkItemFieldNames_WorkItemType V)))
      | None => TypeError
      end
    else
      Renders (AsyncLinkComponent (prop bugBashItem "id")
                 (prop bugBashItem "bugBashId") (prop bugBashItem "id")
                 (prop bugBashItem "title"))
  else if bool_decide (key = WorkItemFieldNames_State V) && isAccepted then
    match acceptedWorkItem with
    | Some workItem =>
        Renders (WorkItemStateView value
                   (prop (fields workItem) (WorkItemFieldNames_WorkItemType V)))
    | None => TypeError
    end
  else if bool_decide (key = BugBashItemFieldNames_TeamId V) then
    Renders (TeamView value)
  else if bool_decide (BugBashItemKeyTypes V !! key = Some "identityRef") then
    Renders (IdentityView value)
  else if bool_decide (BugBashItemKeyTypes V !! key = Some "date") then
    Renders (DateTooltip value)
  else
    Renders (TextTooltip value).

End View.

(** Modelled from the spec: the rest of ../Constants and ../Helpers,
    in the manner of [constants].  An item is rejected once its
    rejected flag is set. *)
Definition viewConstants : ViewConstants := {|
  names := constants;
  BugBashItemFieldNames_TeamId := "teamId";
  WorkItemFieldNames_State := "System.State";
  WorkItemFieldNames_WorkItemType := "System.WorkItemType";
  BugBashItemKeyTypes :=
    {["createdBy" := "identityRef"; "createdDate" := "date";
      "System.AssignedTo" := "identityRef"]};
  isBugBashItemRejected := λ bugBashItem,
    match bugBashItem !! "rejected" with
    | Some (JsBoolean b) => b
    | _ => false
    end
|}.

End BugBashItemCell.

(** * Properties *)

(** ** The bug bash details saga *)

Module DetailsSagaFacts.

Import DetailsSaga.

Section Handlers.

Context {ILongText Store : Type}.
Variable reducer : Store → BugBashDetailActions ILongText → Store.
Variable getBugBashDetailsStatus : Store → string → LoadStatus.

#[local] Abbreviation run := (run reducer getBugBashDetailsStatus).
#[local] Abbreviation busy := (busy getBugBashDetailsStatus).

Lemma run_load_busy s bugBashId :
  busy s bugBashId → run s (loadBugBashDetails bugBashId) = (s, [], Finished).
Proof.
  intros [H | H]; cbn; rewrite H; reflexivity.
Qed.

Lemma run_load_idle s bugBashId :
  ¬ busy s bugBashId →
  run s (loadBugBashDetails bugBashId)
  = (reducer s (beginLoadBugBashDetails bugBashId),
     [beginLoadBugBashDetails bugBashId],
     Blocked (fetchBugBashDetailsAsync bugBashId)
       (task_next (loadTask bugBashId)) (task_throw (loadTask bugBashId))).
Proof.
  intros H. cbn.
  destruct (getBugBashDetailsStatus s bugBashId) eqn:E; try reflexivity;
    exfalso; apply H; unfold DetailsSaga.busy; rewrite E; auto.
Qed.

Lemma run_update_guarded s bugBashId bugBashDetails :
  getBugBashDetailsStatus s bugBashId = Ready
  ∨ getBugBashDetailsStatus s bugBashId = UpdateFailed →
  run s (updateBugBashDetails bugBashId bugBashDetails)
  = (reducer s (beginUpdateBugBashDetails bugBashId bugBashDetails),
     [beginUpdateBugBashDetails bugBashId bugBashDetails],
     Blocked (addOrUpdateDetailsAsync bugBashDetails)
       (task_next (updateTask bugBashId bugBashDetails))
       (task_throw (updateTask bugBashId bugBashDetails))).
Proof.
  intros [H | H]; cbn; rewrite H; reflexivity.
Qed.

Lemma run_update_refused s bugBashId bugBashDetails :
  getBugBashDetailsStatus s bugBashId ≠ Ready →
  getBugBashDetailsStatus s bugBashId ≠ UpdateFailed →
  run s (updateBugBashDetails bugBashId bugBashDetails) = (s, [], Finished).
Proof.
  intros H1 H2. cbn.
  destruct (getBugBashDetailsStatus s bugBashId); try reflexivity; congruence.
Qed.

End Handlers.

(** Single flight is an invariant of the middleware, for any reducer
    that keeps the contract. *)
Section SingleFlight.

Context {ILongText Store : Type}.
Variable reducer : Store → BugBashDetailActions ILongText → Store.
Variable getBugBashDetailsStatus : Store → string → LoadStatus.
Hypothesis contract : ReducerContract reducer getBugBashDetailsStatus.

#[local] Abbreviation run := (run reducer getBugBashDetailsStatus).
#[local] Abbreviation busy := (busy getBugBashDetailsStatus).
#[local] Abbreviation taskOk := (taskOk getBugBashDetailsStatus).
#[local] Abbreviation SingleFlight := (SingleFlight getBugBashDetailsStatus).
#[local] Abbreviation step := (step reducer getBugBashDetailsStatus).
#[local] Abbreviation exec := (exec reducer getBugBashDetailsStatus).

Lemma taskOk_same_status s s' (t : Task ILongText) :
  getBugBashDetailsStatus s' (task_entity t) = getBugBashDetailsStatus s (task_entity t) →
  taskOk s t → taskOk s' t.
Proof.
  intros E [Hb Hs]. split; [| exact Hs].
  unfold DetailsSaga.busy in *. rewrite E. exact Hb.
Qed.

Lemma request_keeps_tasks s a (l : list (Task ILongText)) :
  is_Some (bugBashDetailsSaga a) →
  Forall (taskOk s) l → Forall (taskOk (reducer s a)) l.
Proof.
  intros Ha Hall. eapply Forall_impl; [exact Hall |]. intros t Ht.
  eapply taskOk_same_status; [| exact Ht].
  by apply (request_keeps _ _ contract).
Qed.

Lemma put_keeps_tasks s a (l : list (Task ILongText)) :
  actionBugBashId a ∉ task_entity <$> l →
  Forall (taskOk s) l → Forall (taskOk (reducer s a)) l.
Proof.
  intros Hnotin Hall. rewrite Forall_forall in Hall. apply Forall_forall.
  intros t Ht. eapply taskOk_same_status; [| by apply Hall].
  apply (others_keep _ _ contract). intros E. apply Hnotin.
  rewrite E. apply list_elem_of_fmap. by exists t.
Qed.

Lemma idle_not_in_flight s bugBashId (l : list (Task ILongText)) :
  ¬ busy s bugBashId → Forall (taskOk s) l → bugBashId ∉ task_entity <$> l.
Proof.
  intros Hidle Hall Hin. apply list_elem_of_fmap in Hin as (t & -> & Ht).
  rewrite Forall_forall in Hall. destruct (Hall t Ht) as [Hb _]. by apply Hidle.
Qed.

Lemma single_flight_spawn s l esc log (t : Task ILongText) :
  NoDup (task_entity <$> l) → task_entity t ∉ task_entity <$> l →
  Forall (taskOk s) l → taskOk s t →
  SingleFlight (mkSystem s (l ++ [t]) esc log).
Proof.
  intros Hnd Hnotin Hall Ht. split; cbn.
  - rewrite fmap_app. apply NoDup_app. split; [exact Hnd |]. split.
    + intros x Hx Hx'. cbn in Hx'. apply list_elem_of_singleton in Hx'.
      subst x. by apply Hnotin.
    + cbn. apply NoDup_singleton.
  - apply Forall_app. split; [exact Hall |]. by apply Forall_singleton.
Qed.

Lemma in_flight_split (l : list (Task ILongText)) i t :
  l !! i = Some t → NoDup (task_entity <$> l) →
  NoDup (task_entity <$> delete i l) ∧ task_entity t ∉ task_entity <$> delete i l.
Proof.
  intros Hi Hnd.
  rewrite <- (take_drop_middle l i t Hi) in Hnd.
  rewrite delete_take_drop.
  rewrite fmap_app in Hnd. cbn in Hnd.
  apply NoDup_app in Hnd as (Hl & Hlr & Hr).
  apply NoDup_cons in Hr as (Ht & Hr).
  rewrite fmap_app. split.
  - apply NoDup_app. split; [exact Hl |]. split; [| exact Hr].
    intros x Hx Hx'. apply (Hlr x Hx). by right.
  - intros Hin. apply elem_of_app in Hin as [Hin | Hin]; [| by apply Ht].
    apply (Hlr _ Hin). by left.
Qed.

Lemma delete_keeps_tasks s (l : list (Task ILongText)) i :
  Forall (taskOk s) l → Forall (taskOk s) (delete i l).
Proof.
  intros Hall. rewrite delete_take_drop. apply Forall_app. split.
  - by apply Forall_take.
  - by apply Forall_drop.
Qed.

Lemma dispatch_single_flight sys a :
  is_Some (bugBashDetailsSaga a) →
  SingleFlight sys → SingleFlight (dispatch reducer getBugBashDetailsStatus sys a).
Proof.
  intros Ha [Hnd Hall]. destruct sys as [s l esc log]. cbn in *.
  pose proof (request_keeps_tasks s a l Ha Hall) as Hall1.
  unfold dispatch. cbn [sys_store sys_inflight sys_escaped sys_log].
  destruct esc as [e |].
  { destruct (bugBashDetailsSaga a); by split. }
  destruct a as [bugBashId | bugBashId d | | | | |];
    try (by destruct Ha as [? Ha]; discriminate Ha);
    cbn [bugBashDetailsSaga actionBugBashId].
  - destruct (decide (busy (reducer s (BugBashDetailsLoadRequested bugBashId)) bugBashId))
      as [Hb | Hb].
    + rewrite (run_load_busy _ _ _ _ Hb). by split.
    + rewrite (run_load_idle _ _ _ _ Hb). cbn [settle].
      pose proof (idle_not_in_flight _ _ _ Hb Hall1) as Hfresh.
      apply single_flight_spawn; cbn; try done.
      * by apply put_keeps_tasks.
      * split; [| by left]. left. apply (begin_load_marks _ _ contract).
  - set (s1 := reducer s (BugBashDetailsUpdateRequested bugBashId d)) in *.
    destruct (decide (getBugBashDetailsStatus s1 bugBashId = Ready
                      ∨ getBugBashDetailsStatus s1 bugBashId = UpdateFailed))
      as [Hg | Hg].
    + rewrite (run_update_guarded _ _ _ _ _ Hg). cbn [settle].
      assert (¬ busy s1 bugBashId) as Hb.
      { unfold DetailsSaga.busy. destruct Hg as [-> | ->]; intros [? | ?]; discriminate. }
      pose proof (idle_not_in_flight _ _ _ Hb Hall1) as Hfresh.
      apply single_flight_spawn; cbn; try done.
      * by apply put_keeps_tasks.
      * split; [| right; by exists d]. right. apply (begin_update_marks _ _ contract).
    + rewrite run_update_refused; [by split | |]; intros E; apply Hg; auto.
Qed.

Lemma resume_next_single_flight sys i value :
  SingleFlight sys →
  SingleFlight (resume reducer getBugBashDetailsStatus sys i (λ t, task_next t value)).
Proof.
  intros [Hnd Hall]. destruct sys as [s l esc log]. unfold resume. cbn in *.
  destruct (l !! i) as [t |] eqn:Hi; [| by split].
  destruct (in_flight_split l i t Hi Hnd) as [Hnd' Hfresh].
  pose proof (delete_keeps_tasks s l i Hall) as Hall'.
  rewrite Forall_forall in Hall.
  destruct (Hall t (list_elem_of_lookup_2 _ _ _ Hi)) as [_ [Ht | [d Ht]]];
    rewrite Ht; cbn; (split; cbn; [exact Hnd' | by apply put_keeps_tasks]).
Qed.

Lemma resume_throw_single_flight sys i e :
  SingleFlight sys →
  SingleFlight (resume reducer getBugBashDetailsStatus sys i (λ t, task_throw t e)).
Proof.
  intros [Hnd Hall]. destruct sys as [s l esc log]. unfold resume. cbn in *.
  destruct (l !! i) as [t |] eqn:Hi; [| by split].
  destruct (in_flight_split l i t Hi Hnd) as [Hnd' Hfresh].
  pose proof (delete_keeps_tasks s l i Hall) as Hall'.
  rewrite Forall_forall in Hall.
  destruct (Hall t (list_elem_of_lookup_2 _ _ _ Hi)) as [_ [Ht | [d Ht]]];
    rewrite Ht; cbn.
  - split; cbn; [apply NoDup_nil_2 | apply Forall_nil_2].
  - split; cbn; [exact Hnd' | by apply put_keeps_tasks].
Qed.

Lemma step_single_flight sys ev : SingleFlight sys → SingleFlight (step sys ev).
Proof.
  destruct ev; cbn.
  - by apply dispatch_single_flight.
  - by apply dispatch_single_flight.
  - apply resume_next_single_flight.
  - apply resume_throw_single_flight.
Qed.

Lemma exec_single_flight sys evs : SingleFlight sys → SingleFlight (exec sys evs).
Proof.
  revert sys. induction evs as [| ev evs IH]; intros sys H; [exact H |].
  cbn. apply IH. by apply step_single_flight.
Qed.

Lemma initial_single_flight s : SingleFlight (initial (ILongText := ILongText) s).
Proof. split; cbn; [apply NoDup_nil_2 | apply Forall_nil_2]. Qed.

Lemma reachable_single_flight s evs : SingleFlight (exec (initial s) evs).
Proof. apply exec_single_flight, initial_single_flight. Qed.

Lemma in_flight_distinct sys i j (t1 t2 : Task ILongText) :
  SingleFlight sys →
  sys_inflight sys !! i = Some t1 → sys_inflight sys !! j = Some t2 → i ≠ j →
  task_entity t1 ≠ task_entity t2.
Proof.
  intros [Hnd _] H1 H2 Hij E. apply Hij.
  eapply NoDup_lookup; [exact Hnd | |]; rewrite list_lookup_fmap.
  - by rewrite H1.
  - rewrite H2. cbn. by rewrite E.
Qed.

Lemma in_flight_call_entity sys i (t : Task ILongText) :
  SingleFlight sys → sys_inflight sys !! i = Some t →
  (∀ bugBashId, task_call t = fetchBugBashDetailsAsync bugBashId →
     task_entity t = bugBashId)
  ∧ busy (sys_store sys) (task_entity t).
Proof.
  intros [_ Hall] Hi. rewrite Forall_forall in Hall.
  destruct (Hall t (list_elem_of_lookup_2 _ _ _ Hi)) as [Hb Hs]. split; [| exact Hb].
  intros bugBashId Hc. destruct Hs as [Ht | [d Ht]]; rewrite Ht in Hc; cbn in Hc.
  - by injection Hc.
  - discriminate Hc.
Qed.

End SingleFlight.

(** The reference store keeps the contract. *)
Lemma reference_contract {ILongText : Type} :
  ReducerContract (detailsReducer (ILongText := ILongText)) detailsStatus.
Proof.
  split; unfold detailsStatus.
  - intros s bugBashId. cbn. by rewrite lookup_insert_eq.
  - intros s bugBashId d. cbn. by rewrite lookup_insert_eq.
  - intros s a other [it Ha]. by destruct a.
  - intros s a other Hne. destruct a; cbn in *; try done; by rewrite lookup_insert_ne.
Qed.

(** C1 — loadBugBashDetails is single flight.  Run against a store
    whose status for the bug bash id is Loading or Updating, the
    handler puts no action, calls nothing and leaves the store as it
    is; otherwise it puts beginLoadBugBashDetails and stops at the call
    of fetchBugBashDetailsAsync.  Hence, whatever requests are
    dispatched and however the remote calls settle, a fetch in flight
    for a bug bash id is the only handler in flight for that id: no
    second fetch and no update overlaps it, and its entity is marked
    Loading or Updating in the store. *)
Theorem load_is_single_flight {ILongText Store : Type}
    (reducer : Store → BugBashDetailActions ILongText → Store)
    (getBugBashDetailsStatus : Store → string → LoadStatus)
    (contract : ReducerContract reducer getBugBashDetailsStatus) :
  (∀ s bugBashId,
     let r := run reducer getBugBashDetailsStatus s (loadBugBashDetails bugBashId) in
     (busy getBugBashDetailsStatus s bugBashId → r = (s, [], Finished))
     ∧ (¬ busy getBugBashDetailsStatus s bugBashId →
        r.1.1 = reducer s (beginLoadBugBashDetails bugBashId)
        ∧ r.1.2 = [beginLoadBugBashDetails bugBashId]
        ∧ outcomeCall r.2 = Some (fetchBugBashDetailsAsync bugBashId)))
  ∧ (∀ s evs i j t1 t2 bugBashId,
       let sys := exec reducer getBugBashDetailsStatus (initial s) evs in
       sys_inflight sys !! i = Some t1 →
       sys_inflight sys !! j = Some t2 →
       i ≠ j →
       task_call t1 = fetchBugBashDetailsAsync bugBashId →
       task_entity t1 = bugBashId
       ∧ busy getBugBashDetailsStatus (sys_store sys) bugBashId
       ∧ task_entity t2 ≠ bugBashId
       ∧ task_call t2 ≠ fetchBugBashDetailsAsync bugBashId).
Proof.
  split.
  - intros s bugBashId r. subst r. split.
    + intros Hb. by apply run_load_busy.
    + intros Hb. by rewrite run_load_idle.
  - intros s evs i j t1 t2 bugBashId sys H1 H2 Hij Hc.
    pose proof (reachable_single_flight _ _ contract s evs) as Hsf. fold sys in Hsf.
    destruct (in_flight_call_entity getBugBashDetailsStatus sys i t1 Hsf H1) as [He1 Hb].
    destruct (in_flight_call_entity getBugBashDetailsStatus sys j t2 Hsf H2) as [He2 _].
    pose proof (in_flight_distinct getBugBashDetailsStatus sys i j t1 t2 Hsf H1 H2 Hij) as Hd.
    specialize (He1 _ Hc). subst bugBashId.
    repeat split; [exact Hb | by intros E; apply Hd |].
    intros Hc2. apply Hd. by rewrite (He2 _ Hc2).
Qed.

Lemma load_is_single_flight_witness :
  let sys :=
    exec (detailsReducer (ILongText := string)) detailsStatus (initial ∅)
      [LoadRequested "b1"; LoadRequested "b2"; LoadRequested "b1";
       UpdateRequested "b1" "text"] in
  (sys_inflight sys !! 0%nat = Some (loadTask "b1")
   ∧ sys_inflight sys !! 1%nat = Some (loadTask "b2")
   ∧ length (sys_inflight sys) = 2%nat)
  ∧ task_entity (loadTask (ILongText := string) "b1") = "b1"
  ∧ busy detailsStatus (sys_store sys) "b1"
  ∧ task_entity (loadTask (ILongText := string) "b2") ≠ "b1"
  ∧ task_call (loadTask (ILongText := string) "b2") ≠ fetchBugBashDetailsAsync "b1".
Proof.
  intros sys. split; [repeat split |].
  exact (proj2 (load_is_single_flight detailsReducer detailsStatus reference_contract)
           ∅
           [LoadRequested "b1"; LoadRequested "b2"; LoadRequested "b1";
            UpdateRequested "b1" "text"]
           0%nat 1%nat (loadTask "b1") (loadTask "b2") "b1"
           eq_refl eq_refl ltac:(discriminate) eq_refl).
Defined.

(** C2 — the claim asks that an error thrown by either remote call is
    caught in its handler and reported by a failure action.  The call
    of fetchBugBashDetailsAsync in loadBugBashDetails stands outside any
    try block: when the fetch of "b1" is rejected with the error
    "boom", the error leaves the handler and ends the saga, no failure
    action reaches the store, and "b1" stays Loading. *)
Theorem load_failure_escapes :
  let boom := mkError "boom" in
  let sys :=
    exec (detailsReducer (ILongText := string)) detailsStatus (initial ∅)
      [LoadRequested "b1"; Rejected 0 boom] in
  sys_escaped sys = Some boom
  ∧ sys_log sys = [BugBashDetailsLoadRequested "b1"; beginLoadBugBashDetails "b1"]
  ∧ sys_inflight sys = []
  ∧ detailsStatus (sys_store sys) "b1" = Loading.
Proof. repeat split. Qed.

(** C3 — updateBugBashDetails reports exactly one outcome.  When the
    status of the bug bash id is Ready or UpdateFailed, the handler
    puts beginUpdateBugBashDetails and stops at the call of
    addOrUpdateDetailsAsync; resumed with the returned details it puts
    BugBashDetailsUpdated with them and nothing else, resumed with a
    thrown error it puts BugBashDetailsUpdateFailed with the error's
    message and nothing else; either way the handler then returns. *)
Theorem update_reports_one_outcome {ILongText Store : Type}
    (reducer : Store → BugBashDetailActions ILongText → Store)
    (getBugBashDetailsStatus : Store → string → LoadStatus)
    (s : Store) (bugBashId : string) (bugBashDetails : ILongText) :
  getBugBashDetailsStatus s bugBashId = Ready
  ∨ getBugBashDetailsStatus s bugBashId = UpdateFailed →
  ∃ next throw,
    run reducer getBugBashDetailsStatus s (updateBugBashDetails bugBashId bugBashDetails)
    = (reducer s (beginUpdateBugBashDetails bugBashId bugBashDetails),
       [beginUpdateBugBashDetails bugBashId bugBashDetails],
       Blocked (addOrUpdateDetailsAsync bugBashDetails) next throw)
    ∧ (∀ s' updatedDetails,
         run reducer getBugBashDetailsStatus s' (next updatedDetails)
         = (reducer s' (BugBashDetailsUpdated bugBashId updatedDetails),
            [BugBashDetailsUpdated bugBashId updatedDetails],
            Finished))
    ∧ (∀ s' e,
         run reducer getBugBashDetailsStatus s' (throw e)
         = (reducer s' (BugBashDetailsUpdateFailed bugBashId bugBashDetails (message e)),
            [BugBashDetailsUpdateFailed bugBashId bugBashDetails (message e)],
            Finished)).
Proof.
  intros Hg. eexists _, _. split; [by apply run_update_guarded |].
  split; reflexivity.
Qed.

Lemma update_reports_one_outcome_witness :
  ∃ next throw,
    run (detailsReducer (ILongText := string)) detailsStatus {["b1" := Ready]}
      (updateBugBashDetails "b1" "notes")
    = (detailsReducer {["b1" := Ready]} (beginUpdateBugBashDetails "b1" "notes"),
       [beginUpdateBugBashDetails "b1" "notes"],
       Blocked (addOrUpdateDetailsAsync "notes") next throw)
    ∧ (∀ s' updatedDetails,
         run detailsReducer detailsStatus s' (next updatedDetails)
         = (detailsReducer s' (BugBashDetailsUpdated "b1" updatedDetails),
            [BugBashDetailsUpdated "b1" updatedDetails],
            Finished))
    ∧ (∀ s' e,
         run detailsReducer detailsStatus s' (throw e)
         = (detailsReducer s' (BugBashDetailsUpdateFailed "b1" "notes" (message e)),
            [BugBashDetailsUpdateFailed "b1" "notes" (message e)],
            Finished)).
Proof.
  apply (update_reports_one_outcome detailsReducer detailsStatus {["b1" := Ready]}
           "b1" "notes").
  left. reflexivity.
Defined.

(** C4 — updateBugBashDetails is single flight.  Run against a store
    whose status for the bug bash id is Ready or UpdateFailed, the
    handler puts beginUpdateBugBashDetails and stops at the call of
    addOrUpdateDetailsAsync; for every other status (NotLoaded,
    Loading, LoadFailed, Updating) it puts no action, calls nothing and
    leaves the store as it is.  Hence, whatever requests are dispatched
    and however the remote calls settle, no two updates in flight are
    about the same bug bash id. *)
Theorem update_is_single_flight {ILongText Store : Type}
    (reducer : Store → BugBashDetailActions ILongText → Store)
    (getBugBashDetailsStatus : Store → string → LoadStatus)
    (contract : ReducerContract reducer getBugBashDetailsStatus) :
  (∀ s bugBashId bugBashDetails,
     let r := run reducer getBugBashDetailsStatus s
                (updateBugBashDetails bugBashId bugBashDetails) in
     (getBugBashDetailsStatus s bugBashId ∈ [Ready; UpdateFailed] →
        r.1.1 = reducer s (beginUpdateBugBashDetails bugBashId bugBashDetails)
        ∧ r.1.2 = [beginUpdateBugBashDetails bugBashId bugBashDetails]
        ∧ outcomeCall r.2 = Some (addOrUpdateDetailsAsync bugBashDetails))
     ∧ (getBugBashDetailsStatus s bugBashId ∈ [NotLoaded; Loading; LoadFailed; Updating] →
        r = (s, [], Finished)))
  ∧ (∀ s evs i j t1 t2,
       let sys := exec reducer getBugBashDetailsStatus (initial s) evs in
       sys_inflight sys !! i = Some t1 →
       sys_inflight sys !! j = Some t2 →
       i ≠ j →
       isUpdate t1 → isUpdate t2 →
       task_entity t1 ≠ task_entity t2).
Proof.
  split.
  - intros s bugBashId bugBashDetails r. subst r. split.
    + intros Hin. apply list_elem_of_In in Hin. cbn in Hin.
      rewrite run_update_guarded; [done |].
      destruct Hin as [E | [E | []]]; [left | right]; by symmetry.
    + intros Hin. apply list_elem_of_In in Hin. cbn in Hin.
      apply run_update_refused; intros E; rewrite E in Hin;
        destruct Hin as [? | [? | [? | [? | []]]]]; discriminate.
  - intros s evs i j t1 t2 sys H1 H2 Hij _ _.
    pose proof (reachable_single_flight _ _ contract s evs) as Hsf. fold sys in Hsf.
    exact (in_flight_distinct getBugBashDetailsStatus sys i j t1 t2 Hsf H1 H2 Hij).
Qed.

Lemma update_is_single_flight_witness :
  let s : gmap string LoadStatus := {["b1" := Ready; "b2" := UpdateFailed]} in
  let sys :=
    exec (detailsReducer (ILongText := string)) detailsStatus (initial s)
      [UpdateRequested "b1" "one"; UpdateRequested "b2" "two";
       UpdateRequested "b1" "three"; LoadRequested "b2"] in
  (sys_inflight sys !! 0%nat = Some (updateTask "b1" "one")
   ∧ sys_inflight sys !! 1%nat = Some (updateTask "b2" "two")
   ∧ length (sys_inflight sys) = 2%nat)
  ∧ task_entity (updateTask "b1" "one") ≠ task_entity (updateTask "b2" "two").
Proof.
  intros s sys. split; [repeat split |].
  exact (proj2 (update_is_single_flight detailsReducer detailsStatus reference_contract)
           s
           [UpdateRequested "b1" "one"; UpdateRequested "b2" "two";
            UpdateRequested "b1" "three"; LoadRequested "b2"]
           0%nat 1%nat (updateTask "b1" "one") (updateTask "b2" "two")
           eq_refl eq_refl ltac:(discriminate)
           (ex_intro _ "one" eq_refl) (ex_intro _ "two" eq_refl)).
Defined.

(** *** Whole runs of a handler *)

Section Cycles.

Context {ILongText Store : Type}.
Variable reducer : Store → BugBashDetailActions ILongText → Store.
Variable getBugBashDetailsStatus : Store → string → LoadStatus.

#[local] Abbreviation step := (step reducer getBugBashDetailsStatus).
#[local] Abbreviation exec := (exec reducer getBugBashDetailsStatus).
#[local] Abbreviation busy := (busy getBugBashDetailsStatus).

Lemma resume_last (s : Store) (l : list (Task ILongText)) esc log t k :
  resume reducer getBugBashDetailsStatus (mkSystem s (l ++ [t]) esc log) (length l) k
  = settle l esc log (task_entity t) (run reducer getBugBashDetailsStatus s (k t)).
Proof.
  unfold resume. cbn [sys_inflight sys_store sys_escaped sys_log].
  rewrite (list_lookup_middle l [] t (length l) eq_refl).
  rewrite (delete_middle l [] t). by rewrite app_nil_r.
Qed.

(** A load that succeeds, start to end: the request is answered by
    beginLoadBugBashDetails, the fetch joins the handlers in flight,
    and once it resolves the details are put with bugBashDetailsLoaded;
    the handlers that were in flight before are as they were. *)
Theorem load_round_trip (sys : System ILongText Store) (bugBashId : string)
    (details : ILongText) :
  sys_escaped sys = None →
  ¬ busy (reducer (sys_store sys) (BugBashDetailsLoadRequested bugBashId)) bugBashId →
  let requested := step sys (LoadRequested bugBashId) in
  let loaded := step requested (Resolved (length (sys_inflight sys)) details) in
  sys_inflight requested = sys_inflight sys ++ [loadTask bugBashId]
  ∧ sys_inflight loaded = sys_inflight sys
  ∧ sys_escaped loaded = None
  ∧ sys_log loaded
    = sys_log sys ++ [BugBashDetailsLoadRequested bugBashId;
                      beginLoadBugBashDetails bugBashId;
                      bugBashDetailsLoaded bugBashId details]
  ∧ sys_store loaded
    = reducer
        (reducer (reducer (sys_store sys) (BugBashDetailsLoadRequested bugBashId))
           (beginLoadBugBashDetails bugBashId))
        (bugBashDetailsLoaded bugBashId details).
Proof.
  destruct sys as [s l esc log]. cbn [sys_escaped sys_store sys_inflight sys_log].
  intros -> Hidle. cbv zeta.
  cbn [DetailsSaga.step]. unfold dispatch.
  cbn [sys_escaped sys_store sys_inflight sys_log bugBashDetailsSaga actionBugBashId].
  rewrite (run_load_idle _ _ _ _ Hidle). cbn [settle].
  split; [reflexivity |].
  change (mkTask bugBashId (fetchBugBashDetailsAsync bugBashId)
            (task_next (loadTask bugBashId)) (task_throw (loadTask bugBashId)))
    with (loadTask (ILongText := ILongText) bugBashId).
  rewrite resume_last. cbn.
  repeat split. by rewrite <- !app_assoc.
Qed.

(** An update, start to end, whichever way the remote call settles:
    the saga stays alive, the handlers that were in flight before are
    as they were, and the store has received the request,
    beginUpdateBugBashDetails and then BugBashDetailsUpdated with the
    returned details, or BugBashDetailsUpdateFailed with the submitted
    details and the message of the error. *)
Theorem update_round_trip (sys : System ILongText Store) (bugBashId : string)
    (bugBashDetails : ILongText) :
  sys_escaped sys = None →
  getBugBashDetailsStatus
    (reducer (sys_store sys) (BugBashDetailsUpdateRequested bugBashId bugBashDetails))
    bugBashId ∈ [Ready; UpdateFailed] →
  let requested := step sys (UpdateRequested bugBashId bugBashDetails) in
  let n := length (sys_inflight sys) in
  sys_inflight requested = sys_inflight sys ++ [updateTask bugBashId bugBashDetails]
  ∧ (∀ updatedDetails,
       let updated := step requested (Resolved n updatedDetails) in
       sys_inflight updated = sys_inflight sys
       ∧ sys_escaped updated = None
       ∧ sys_log updated
         = sys_log sys ++ [BugBashDetailsUpdateRequested bugBashId bugBashDetails;
                           beginUpdateBugBashDetails bugBashId bugBashDetails;
                           BugBashDetailsUpdated bugBashId updatedDetails])
  ∧ (∀ e,
       let failed := step requested (Rejected n e) in
       sys_inflight failed = sys_inflight sys
       ∧ sys_escaped failed = None
       ∧ sys_log failed
         = sys_log sys ++ [BugBashDetailsUpdateRequested bugBashId bugBashDetails;
                           beginUpdateBugBashDetails bugBashId bugBashDetails;
                           BugBashDetailsUpdateFailed bugBashId bugBashDetails
                             (message e)]).
Proof.
  destruct sys as [s l esc log]. cbn [sys_escaped sys_store sys_inflight sys_log].
  intros -> Hin. cbv zeta.
  assert (getBugBashDetailsStatus
            (reducer s (BugBashDetailsUpdateRequested bugBashId bugBashDetails))
            bugBashId = Ready
          ∨ getBugBashDetailsStatus
              (reducer s (BugBashDetailsUpdateRequested bugBashId bugBashDetails))
              bugBashId = UpdateFailed) as Hg.
  { apply list_elem_of_In in Hin. cbn in Hin.
    destruct Hin as [E | [E | []]]; [left | right]; by symmetry. }
  cbn [DetailsSaga.step]. unfold dispatch.
  cbn [sys_escaped sys_store sys_inflight sys_log bugBashDetailsSaga actionBugBashId].
  rewrite (run_update_guarded _ _ _ _ _ Hg). cbn [settle].
  split; [reflexivity |].
  change (mkTask bugBashId (addOrUpdateDetailsAsync bugBashDetails)
            (task_next (updateTask bugBashId bugBashDetails))
            (task_throw (updateTask bugBashId bugBashDetails)))
    with (updateTask bugBashId bugBashDetails).
  split.
  - intros updatedDetails. rewrite resume_last. cbn.
    repeat split. by rewrite <- !app_assoc.
  - intros e. rewrite resume_last. cbn.
    repeat split. by rewrite <- !app_assoc.
Qed.





End Cycles.

Lemma load_round_trip_witness :
  let sys := mkSystem (∅ : gmap string LoadStatus) [loadTask "b2"] None [] in
  let loaded :=
    exec (detailsReducer (ILongText := string)) detailsStatus sys
      [LoadRequested "b1"; Resolved 1 "notes"] in
  sys_inflight loaded = [loadTask "b2"]
  ∧ sys_log loaded
    = [BugBashDetailsLoadRequested "b1"; beginLoadBugBashDetails "b1";
       bugBashDetailsLoaded "b1" "notes"].
Proof.
  intros sys loaded.
  destruct (load_round_trip detailsReducer detailsStatus sys "b1" "notes" eq_refl)
    as (_ & Hfl & _ & Hlog & _).
  - intros [H | H]; discriminate H.
  - split; [exact Hfl | exact Hlog].
Defined.

Lemma update_round_trip_witness :
  let sys := mkSystem ({["b1" := Ready]} : gmap string LoadStatus) [] None [] in
  let failed :=
    exec (detailsReducer (ILongText := string)) detailsStatus sys
      [UpdateRequested "b1" "notes"; Rejected 0 (mkError "conflict")] in
  sys_escaped failed = None
  ∧ sys_log failed
    = [BugBashDetailsUpdateRequested "b1" "notes";
       beginUpdateBugBashDetails "b1" "notes";
       BugBashDetailsUpdateFailed "b1" "notes" "conflict"].
Proof.
  intros sys failed.
  destruct (update_round_trip detailsReducer detailsStatus sys "b1" "notes" eq_refl)
    as (_ & _ & Hfailed).
  - apply list_elem_of_In. left. reflexivity.
  - destruct (Hfailed (mkError "conflict")) as (_ & Hesc & Hlog).
    split; [exact Hesc | exact Hlog].
Defined.


End DetailsSagaFacts.

(** ** The people picker provider *)

Module IdentityServiceFacts.

Import IdentityService.

Lemma then_id {A : Type} (p : Promise A) : (λ x, x) <$> p = p.
Proof. by destruct p. Qed.

Lemma then_resolves_inv {A B : Type} (p : Promise A) (f : A → B) (y : B) :
  f <$> p = Resolves y → ∃ x, p = Resolves x ∧ y = f x.
Proof.
  destruct p as [x | e]; cbn; [| discriminate].
  intros [= <-]. by exists x.
Qed.

Lemma bind_resolves_inv {A B : Type} (p : Promise A) (f : A → Promise B) (y : B) :
  p ≫= f = Resolves y → ∃ x, p = Resolves x ∧ f x = Resolves y.
Proof.
  destruct p as [x | e]; cbn; [| discriminate].
  intros H. by exists x.
Qed.

(** What _onSearchPersona resolves to, in terms of what the search
    found. *)
Lemma onSearchPersona_resolves this searchText items suggestions :
  _onSearchPersona this searchText items = Resolves suggestions →
  ∃ identityService found,
    IdentityService.identityService this = Resolves identityService
    ∧ searchIdentitiesAsync identityService searchText None None None None
      = Resolves found
    ∧ ∀ identity,
        identity ∈ suggestions ↔
        identity ∈ found
        ∧ ∀ selected, selected ∈ items → entityId selected ≠ entityId identity.
Proof.
  unfold _onSearchPersona. intros H.
  apply bind_resolves_inv in H as (svc & Hsvc & H).
  apply then_resolves_inv in H as (found & Hfound & ->).
  exists svc, found. split; [exact Hsvc |]. split; [exact Hfound |].
  intros identity. rewrite !list_elem_of_In, filter_In, negb_true_iff.
  rewrite <- not_true_iff_false, existsb_exists.
  split.
  - intros [Hin Hnone]. split; [exact Hin |].
    intros selected Hsel E. apply Hnone. exists selected.
    split; [by apply list_elem_of_In | by apply bool_decide_eq_true].
  - intros [Hin Hnone]. split; [exact Hin |].
    intros (selected & Hsel & E). apply bool_decide_eq_true in E.
    apply (Hnone selected); [by apply list_elem_of_In | exact E].
Qed.

(** C5 — onEmptyInputFocus passes the MRU list through.  The promise
    it returns is the promise of getIdentityMruAsync of the host's
    identity service, unchanged; in particular, when the service
    resolves with a list of identities, onEmptyInputFocus resolves
    with that same list. *)
Theorem onEmptyInputFocus_is_mru (this : PeoplePickerProvider) :
  onEmptyInputFocus this
  = (identityService this ≫= λ identityService, getIdentityMruAsync identityService ())
  ∧ ∀ identityService identities,
      IdentityService.identityService this = Resolves identityService →
      getIdentityMruAsync identityService () = Resolves identities →
      onEmptyInputFocus this = Resolves identities.
Proof.
  unfold onEmptyInputFocus. split.
  - destruct (identityService this) as [svc | e]; cbn; [| reflexivity].
    apply then_id.
  - intros svc identities -> Hmru. cbn. by rewrite Hmru.
Qed.

Lemma onEmptyInputFocus_is_mru_witness :
  let alice := mkIdentity "a-1" "user" "aad" "1" in
  let bob := mkIdentity "b-2" "user" "aad" "2" in
  let service := {|
    getIdentityMruAsync := λ _, Resolves [bob; alice; bob];
    searchIdentitiesAsync := λ _ _ _ _ _, Resolves []
  |} in
  onEmptyInputFocus {| identityService := Resolves service |}
  = Resolves [bob; alice; bob].
Proof.
  intros alice bob service.
  exact (proj2 (onEmptyInputFocus_is_mru {| identityService := Resolves service |})
           service [bob; alice; bob] eq_refl eq_refl).
Defined.

(** C8 — onFilterIdentities excludes the identities already selected.
    Every identity of the list it resolves with has an entityId
    different from the entityId of every element of selectedItems, and
    leaving selectedItems out is the same as passing the empty list. *)
Theorem onFilterIdentities_excludes_selected (this : PeoplePickerProvider)
    (filter : string) :
  (∀ selectedItems suggestions,
     onFilterIdentities this filter (Some selectedItems) = Resolves suggestions →
     ∀ identity selected,
       identity ∈ suggestions → selected ∈ selectedItems →
       entityId identity ≠ entityId selected)
  ∧ onFilterIdentities this filter None = onFilterIdentities this filter (Some []).
Proof.
  split; [| reflexivity].
  intros selectedItems suggestions H identity selected Hin Hsel E.
  apply onSearchPersona_resolves in H as (svc & found & _ & _ & Hchar).
  apply Hchar in Hin as [_ Hnone]. by apply (Hnone selected).
Qed.

Lemma onFilterIdentities_excludes_selected_witness :
  let alice := mkIdentity "a-1" "user" "aad" "1" in
  let bob := mkIdentity "b-2" "user" "aad" "2" in
  let carol := mkIdentity "c-3" "user" "aad" "3" in
  let service := {|
    getIdentityMruAsync := λ _, Resolves [];
    searchIdentitiesAsync := λ _ _ _ _ _, Resolves [alice; bob; carol]
  |} in
  let this := {| identityService := Resolves service |} in
  onFilterIdentities this "a" (Some [bob]) = Resolves [alice; carol]
  ∧ entityId carol ≠ entityId bob.
Proof.
  intros alice bob carol service this. split; [reflexivity |].
  apply (proj1 (onFilterIdentities_excludes_selected this "a") [bob] [alice; carol]
           eq_refl carol bob).
  - apply list_elem_of_In. right. left. reflexivity.
  - apply list_elem_of_In. left. reflexivity.
Defined.

(** C10 — getEntityFromUniqueAttribute resolves with the first element
    of what the identity search found; when the search found nothing
    it resolves with undefined, for all that its type announces an
    IIdentity. *)
Theorem getEntityFromUniqueAttribute_first (this : PeoplePickerProvider)
    (entityId : string) (identityService : IVssIdentityService) :
  IdentityService.identityService this = Resolves identityService →
  let search :=
    searchIdentitiesAsync identityService entityId
      (Some ["user"]) (Some ["ims"; "source"]) (Some "uid") None in
  (∀ first rest,
     search = Resolves (first :: rest) →
     getEntityFromUniqueAttribute this entityId = Resolves (Some first))
  ∧ (search = Resolves [] →
     getEntityFromUniqueAttribute this entityId = Resolves None).
Proof.
  intros Hsvc search. subst search. unfold getEntityFromUniqueAttribute.
  rewrite Hsvc. cbn. split.
  - intros first rest ->. reflexivity.
  - intros ->. reflexivity.
Qed.

Lemma getEntityFromUniqueAttribute_first_witness :
  let alice := mkIdentity "a-1" "user" "aad" "1" in
  let bob := mkIdentity "b-2" "user" "aad" "2" in
  let service := {|
    getIdentityMruAsync := λ _, Resolves [];
    searchIdentitiesAsync := λ query _ _ _ _,
      if bool_decide (query = "a-1") then Resolves [alice; bob] else Resolves []
  |} in
  let this := {| identityService := Resolves service |} in
  getEntityFromUniqueAttribute this "a-1" = Resolves (Some alice)
  ∧ getEntityFromUniqueAttribute this "nobody" = Resolves None.
Proof.
  intros alice bob service this. split.
  - exact (proj1 (getEntityFromUniqueAttribute_first this "a-1" service eq_refl)
             alice [bob] eq_refl).
  - exact (proj2 (getEntityFromUniqueAttribute_first this "nobody" service eq_refl)
             eq_refl).
Defined.

(** *** Beyond the claims *)

Lemma filter_is_sublist {A : Type} (f : A → bool) (l : list A) :
  sublist (List.filter f l) l.
Proof.
  induction l as [| x l IH]; cbn; [constructor |].
  destruct (f x); by constructor.
Qed.

Lemma filter_all {A : Type} (l : list A) : List.filter (λ _, true) l = l.
Proof. induction l as [| x l IH]; cbn; [reflexivity | by rewrite IH]. Qed.

Lemma unselected_is_kept (items found : list IIdentity) (identity : IIdentity) :
  identity ∈ found →
  (∀ selected, selected ∈ items → entityId selected ≠ entityId identity) →
  identity ∈
    List.filter
      (λ identity,
         negb (existsb
                 (λ selectedIdentity,
                    bool_decide (entityId selectedIdentity = entityId identity))
                 items))
      found.
Proof.
  intros Hin Hnone. apply list_elem_of_In, filter_In.
  split; [by apply list_elem_of_In |].
  apply negb_true_iff, not_true_iff_false. intros Hex.
  apply existsb_exists in Hex as (selected & Hsel & E).
  apply bool_decide_eq_true in E.
  apply (Hnone selected); [by apply list_elem_of_In | exact E].
Qed.

(** The suggestions are the search result with the selected
    identities taken out and nothing else: they come in the order of
    the search result, and every found identity that shares its
    entityId with no selected item is among them. *)
Theorem onFilterIdentities_keeps_the_rest (this : PeoplePickerProvider)
    (filter : string) (selectedItems : list IIdentity)
    (identityService : IVssIdentityService) (found : list IIdentity) :
  IdentityService.identityService this = Resolves identityService →
  searchIdentitiesAsync identityService filter None None None None = Resolves found →
  ∃ suggestions,
    onFilterIdentities this filter (Some selectedItems) = Resolves suggestions
    ∧ sublist suggestions found
    ∧ ∀ identity,
        identity ∈ found →
        (∀ selected, selected ∈ selectedItems →
           entityId selected ≠ entityId identity) →
        identity ∈ suggestions.
Proof.
  intros Hsvc Hfound. unfold onFilterIdentities, _onSearchPersona.
  rewrite Hsvc. cbn. rewrite Hfound. cbn. eexists. split; [reflexivity |].
  split; [apply filter_is_sublist |].
  intros identity Hin Hnone. by apply unselected_is_kept.
Qed.

Lemma onFilterIdentities_keeps_the_rest_witness :
  let alice := mkIdentity "a-1" "user" "aad" "1" in
  let bob := mkIdentity "b-2" "user" "aad" "2" in
  let carol := mkIdentity "c-3" "user" "aad" "3" in
  let service := {|
    getIdentityMruAsync := λ _, Resolves [];
    searchIdentitiesAsync := λ _ _ _ _ _, Resolves [carol; bob; alice; bob]
  |} in
  let this := {| identityService := Resolves service |} in
  ∃ suggestions,
    onFilterIdentities this "a" (Some [bob]) = Resolves suggestions
    ∧ sublist suggestions [carol; bob; alice; bob]
    ∧ ∀ identity,
        identity ∈ [carol; bob; alice; bob] →
        (∀ selected, selected ∈ [bob] → entityId selected ≠ entityId identity) →
        identity ∈ suggestions.
Proof.
  intros alice bob carol service this.
  exact (onFilterIdentities_keeps_the_rest this "a" [bob] service
           [carol; bob; alice; bob] eq_refl eq_refl).
Defined.

(** With nothing selected, be it undefined or the empty array,
    onFilterIdentities is the search itself: it settles as the search
    does, with the same list or the same error. *)
Theorem onFilterIdentities_nothing_selected (this : PeoplePickerProvider)
    (filter : string) (selectedItems : option (list IIdentity)) :
  selectedItems = None ∨ selectedItems = Some [] →
  onFilterIdentities this filter selectedItems
  = (identityService this ≫= λ identityService,
       searchIdentitiesAsync identityService filter None None None None).
Proof.
  intros Hsel. assert (onFilterIdentities this filter selectedItems
                       = _onSearchPersona this filter []) as ->
    by (by destruct Hsel as [-> | ->]).
  unfold _onSearchPersona.
  destruct (identityService this) as [svc | e]; cbn; [| reflexivity].
  destruct (searchIdentitiesAsync svc filter None None None None) as [found | e];
    cbn; [| reflexivity].
  by rewrite filter_all.
Qed.

Lemma onFilterIdentities_nothing_selected_witness :
  let alice := mkIdentity "a-1" "user" "aad" "1" in
  let service := {|
    getIdentityMruAsync := λ _, Resolves [];
    searchIdentitiesAsync := λ _ _ _ _ _, Resolves [alice; alice]
  |} in
  let this := {| identityService := Resolves service |} in
  onFilterIdentities this "a" None = Resolves [alice; alice].
Proof.
  intros alice service this.
  exact (onFilterIdentities_nothing_selected this "a" None (or_introl eq_refl)).
Defined.

(** The provider swallows no error and replaces none: when the
    promise of the identity service is rejected, or the method of the
    service that is called is, each of the three methods is rejected
    with that same reason. *)
Theorem provider_passes_rejections_on (this : PeoplePickerProvider) (e : JsError) :
  (identityService this = Rejects e →
   onEmptyInputFocus this = Rejects e
   ∧ (∀ entityId, getEntityFromUniqueAttribute this entityId = Rejects e)
   ∧ (∀ filter selectedItems, onFilterIdentities this filter selectedItems = Rejects e))
  ∧ (∀ identityService,
       IdentityService.identityService this = Resolves identityService →
       (getIdentityMruAsync identityService () = Rejects e →
        onEmptyInputFocus this = Rejects e)
       ∧ (∀ entityId,
            searchIdentitiesAsync identityService entityId
              (Some ["user"]) (Some ["ims"; "source"]) (Some "uid") None = Rejects e →
            getEntityFromUniqueAttribute this entityId = Rejects e)
       ∧ (∀ filter selectedItems,
            searchIdentitiesAsync identityService filter None None None None
            = Rejects e →
            onFilterIdentities this filter selectedItems = Rejects e)).
Proof.
  unfold onEmptyInputFocus, getEntityFromUniqueAttribute, onFilterIdentities,
    _onSearchPersona.
  split.
  - intros ->. by repeat split.
  - intros svc ->. cbn. repeat split.
    + by intros ->.
    + by intros entityId ->.
    + by intros filter selectedItems ->.
Qed.

Lemma provider_passes_rejections_on_witness :
  let offline := mkError "offline" in
  let this := {| identityService := Rejects offline |} in
  onEmptyInputFocus this = Rejects offline
  ∧ getEntityFromUniqueAttribute this "a-1" = Rejects offline
  ∧ onFilterIdentities this "a" None = Rejects offline.
Proof.
  intros offline this.
  destruct (proj1 (provider_passes_rejections_on this offline) eq_refl)
    as (Hmru & Hentity & Hfilter).
  split; [exact Hmru |]. split; [apply Hentity | apply Hfilter].
Defined.

(** getIdentityService remembers a service and forgets a failure.
    Once the host has given a service, every later call resolves with
    that service, whatever the host would answer then; after a call
    that was rejected the variable is still unset, and the next call
    settles as the host then does. *)
Theorem getIdentityService_caches_success_only
    (first later : Promise IVssIdentityService) :
  let call1 := getIdentityService None first in
  let call2 := getIdentityService call1.2 later in
  call1.1 = first
  ∧ (∀ identityService,
       first = Resolves identityService →
       call2 = (Resolves identityService, Some identityService))
  ∧ (∀ e, first = Rejects e → call1.2 = None ∧ call2.1 = later).
Proof.
  cbv zeta. split; [by destruct first |]. split.
  - by intros svc ->.
  - intros e ->. cbn. split; [reflexivity |]. by destruct later.
Qed.

Lemma getIdentityService_caches_success_only_witness :
  let service := {|
    getIdentityMruAsync := λ _, Resolves [];
    searchIdentitiesAsync := λ _ _ _ _ _, Resolves []
  |} in
  let offline := mkError "offline" in
  getIdentityService (getIdentityService None (Resolves service)).2 (Rejects offline)
  = (Resolves service, Some service)
  ∧ (getIdentityService (getIdentityService None (Rejects offline)).2
       (Resolves service)).1
    = Resolves service.
Proof.
  intros service offline. split.
  - exact (proj1 (proj2 (getIdentityService_caches_success_only
                           (Resolves service) (Rejects offline)))
             service eq_refl).
  - exact (proj2 (proj2 (proj2 (getIdentityService_caches_success_only
                                  (Rejects offline) (Resolves service)))
                    offline eq_refl)).
Defined.

(** A provider constructed while the host fails stays broken: its
    methods are rejected with the error of that one call for good,
    although getIdentityService itself would, on a later call, ask the
    host again. *)
Theorem provider_of_failed_host (e : JsError) (later : Promise IVssIdentityService) :
  let built := newPeoplePickerProvider None (Rejects e) in
  onEmptyInputFocus built.1 = Rejects e
  ∧ (∀ entityId, getEntityFromUniqueAttribute built.1 entityId = Rejects e)
  ∧ (∀ filter selectedItems, onFilterIdentities built.1 filter selectedItems = Rejects e)
  ∧ (getIdentityService built.2 later).1 = later.
Proof.
  cbv zeta. cbn. repeat split. by destruct later.
Qed.

End IdentityServiceFacts.

(** ** The active work item reducer *)

Module ActiveWorkItemFacts.

Import ActiveWorkItem.

(** Reading a property of the draft after a run of assignments. *)
Lemma lookup_assignments (payload draft : gmap string JsValue) (names : list string)
    (name : string) :
  foldl (assign payload) draft names !! name
  = if decide (name ∈ names) then Some (prop payload name) else draft !! name.
Proof.
  revert draft. induction names as [| n names IH]; intros draft; cbn.
  - case_decide as H; [by apply elem_of_nil in H | reflexivity].
  - rewrite IH. unfold assign.
    destruct (decide (name ∈ names)) as [Hin | Hnotin].
    + rewrite decide_True; [reflexivity | by right].
    + destruct (decide (name = n)) as [-> | Hne].
      * rewrite decide_True; [| by left]. by rewrite lookup_insert_eq.
      * rewrite decide_False; [by rewrite lookup_insert_ne |].
        intros H. apply elem_of_cons in H as [? | ?]; done.
Qed.

(** C9 — the frame of activeWorkItemReducer.  For an action whose type
    is not SetActiveWorkItem the result is the input state, or
    defaultActiveWorkItemState when the input is undefined.  For a
    SetActiveWorkItem action the nine properties id, rev, isNew, links,
    queryableFields, sortableFields, relationTypes, project and
    workItemTypeName of the result are those of the payload, and every
    other property is as in the input state (or the default). *)
Theorem activeWorkItemReducer_frame (SetActiveWorkItem : string)
    (defaultActiveWorkItemState : gmap string JsValue)
    (state : option (gmap string JsValue)) (action : Action) :
  let before := default defaultActiveWorkItemState state in
  let after := activeWorkItemReducer SetActiveWorkItem defaultActiveWorkItemState
                 state action in
  let nine := ["id"; "rev"; "isNew"; "links"; "queryableFields"; "sortableFields";
               "relationTypes"; "project"; "workItemTypeName"] in
  (action_type action ≠ SetActiveWorkItem → after = before)
  ∧ (action_type action = SetActiveWorkItem →
     (∀ name, name ∈ nine → prop after name = prop (payload action) name)
     ∧ (∀ name, name ∉ nine → after !! name = before !! name)).
Proof.
  intros before after nine. subst after. unfold activeWorkItemReducer. split.
  - intros Hne. by rewrite bool_decide_eq_false_2.
  - intros Heq. rewrite bool_decide_eq_true_2 by exact Heq.
    fold before. change setActiveWorkItemFields with nine. split.
    + intros name Hin. unfold prop at 1.
      rewrite lookup_assignments. by rewrite decide_True.
    + intros name Hnotin. rewrite lookup_assignments. by rewrite decide_False.
Qed.

Lemma activeWorkItemReducer_frame_witness :
  let state : gmap string JsValue :=
    {["id" := JsNumber 1; "rev" := JsNumber 4; "error" := JsString "stale"]} in
  let action :=
    mkAction "SetActiveWorkItem"
      {["id" := JsNumber 7; "rev" := JsNumber 2; "isNew" := JsBoolean false;
        "project" := JsString "Contoso"]} in
  let after := activeWorkItemReducer "SetActiveWorkItem" ∅ (Some state) action in
  (prop after "id" = JsNumber 7
   ∧ prop after "links" = JsUndefined
   ∧ after !! "error" = Some (JsString "stale"))
  ∧ (∀ name,
       name ∈ ["id"; "rev"; "isNew"; "links"; "queryableFields"; "sortableFields";
               "relationTypes"; "project"; "workItemTypeName"] →
       prop after name = prop (payload action) name)
  ∧ (∀ name,
       name ∉ ["id"; "rev"; "isNew"; "links"; "queryableFields"; "sortableFields";
               "relationTypes"; "project"; "workItemTypeName"] →
       after !! name = state !! name).
Proof.
  intros state action after. split; [repeat split |].
  exact (proj2 (activeWorkItemReducer_frame "SetActiveWorkItem" ∅ (Some state) action)
           eq_refl).
Defined.

(** *** Beyond the claims *)

Lemma dom_assignments (payload draft : gmap string JsValue) (names : list string) :
  dom (foldl (assign payload) draft names) = dom draft ∪ list_to_set names.
Proof.
  revert draft. induction names as [| n names IH]; intros draft; cbn.
  - by rewrite union_empty_r_L.
  - rewrite IH. unfold assign. rewrite dom_insert_L.
    rewrite (union_comm_L {[n]} (dom draft)). by rewrite union_assoc_L.
Qed.

(** The last SetActiveWorkItem wins: whatever action was reduced
    before it, the state after it is the one it would have given on
    its own.  In particular reducing an action twice is reducing it
    once. *)
Theorem setActiveWorkItem_last_wins (SetActiveWorkItem : string)
    (defaultActiveWorkItemState : gmap string JsValue)
    (state : option (gmap string JsValue)) (earlier last : Action) :
  let reduce := activeWorkItemReducer SetActiveWorkItem defaultActiveWorkItemState in
  (action_type last = SetActiveWorkItem →
   reduce (Some (reduce state earlier)) last = reduce state last)
  ∧ reduce (Some (reduce state last)) last = reduce state last.
Proof.
  cbv zeta.
  assert (∀ earlier last, action_type last = SetActiveWorkItem →
            activeWorkItemReducer SetActiveWorkItem defaultActiveWorkItemState
              (Some (activeWorkItemReducer SetActiveWorkItem defaultActiveWorkItemState
                       state earlier)) last
            = activeWorkItemReducer SetActiveWorkItem defaultActiveWorkItemState
                state last) as Hwins.
  { clear earlier last. intros earlier last Hlast. apply map_eq. intros name.
    unfold activeWorkItemReducer at 1 3. rewrite !bool_decide_eq_true_2 by exact Hlast.
    rewrite !lookup_assignments.
    destruct (decide (name ∈ setActiveWorkItemFields)) as [Hin | Hnotin];
      [reflexivity |].
    cbn [from_option]. unfold id, activeWorkItemReducer.
    case_bool_decide; [| reflexivity].
    rewrite lookup_assignments. by rewrite decide_False. }
  split; [apply Hwins |].
  destruct (decide (action_type last = SetActiveWorkItem)) as [Hlast | Hother];
    [by apply Hwins |].
  unfold activeWorkItemReducer. by rewrite !bool_decide_eq_false_2.
Qed.

Lemma setActiveWorkItem_last_wins_witness :
  let first :=
    mkAction "SetActiveWorkItem" {["id" := JsNumber 7; "project" := JsString "Contoso"]} in
  let second := mkAction "SetActiveWorkItem" {["id" := JsNumber 9]} in
  let reduce := activeWorkItemReducer "SetActiveWorkItem" ∅ in
  reduce (Some (reduce None first)) second = reduce None second.
Proof.
  intros first second reduce.
  exact (proj1 (setActiveWorkItem_last_wins "SetActiveWorkItem" ∅ None first second)
           eq_refl).
Defined.

(** The reducer removes no property, and after a SetActiveWorkItem the
    state has all nine properties, also those the payload does not
    have (they are then undefined). *)
Theorem activeWorkItemReducer_properties (SetActiveWorkItem : string)
    (defaultActiveWorkItemState : gmap string JsValue)
    (state : option (gmap string JsValue)) (action : Action) :
  let before := default defaultActiveWorkItemState state in
  let after := activeWorkItemReducer SetActiveWorkItem defaultActiveWorkItemState
                 state action in
  dom before ⊆ dom after
  ∧ (action_type action = SetActiveWorkItem →
     dom after
     = dom before
       ∪ {["id"; "rev"; "isNew"; "links"; "queryableFields"; "sortableFields";
           "relationTypes"; "project"; "workItemTypeName"]}).
Proof.
  cbv zeta. unfold activeWorkItemReducer. split.
  - case_bool_decide; [| done]. rewrite dom_assignments. apply union_subseteq_l.
  - intros Hset. rewrite bool_decide_eq_true_2 by exact Hset.
    rewrite dom_assignments. f_equal.
Qed.

Lemma activeWorkItemReducer_properties_witness :
  let state : gmap string JsValue := {["error" := JsString "stale"]} in
  let action := mkAction "SetActiveWorkItem" {["id" := JsNumber 7]} in
  dom (activeWorkItemReducer "SetActiveWorkItem" ∅ (Some state) action)
  = dom state
    ∪ {["id"; "rev"; "isNew"; "links"; "queryableFields"; "sortableFields";
        "relationTypes"; "project"; "workItemTypeName"]}.
Proof.
  intros state action.
  exact (proj2 (activeWorkItemReducer_properties "SetActiveWorkItem" ∅ (Some state)
                  action) eq_refl).
Defined.

End ActiveWorkItemFacts.

(** ** The bug bash view header *)

Module BugBashViewHeaderFacts.

Import BugBashViewHeader.

(** C6 — the status shown in the header.  For every bug bash and
    current time the text is Completed exactly when isBugBashCompleted
    holds, InProgress exactly when it does not and isBugBashInProgress
    holds, and Scheduled exactly when neither holds; so exactly one of
    the three texts is shown, and each comes with its own status
    type. *)
Theorem header_status_by_priority {IBugBash Date : Type}
    (isBugBashCompleted isBugBashInProgress : IBugBash → Date → bool)
    (bugBash : IBugBash) (currentTime : Date) :
  let statusProps :=
    onRenderHeaderTitle isBugBashCompleted isBugBashInProgress bugBash currentTime in
  (text statusProps = Completed ↔ isBugBashCompleted bugBash currentTime = true)
  ∧ (text statusProps = InProgress ↔
     isBugBashCompleted bugBash currentTime = false
     ∧ isBugBashInProgress bugBash currentTime = true)
  ∧ (text statusProps = Scheduled ↔
     isBugBashCompleted bugBash currentTime = false
     ∧ isBugBashInProgress bugBash currentTime = false)
  ∧ (statusProps = mkStatusProps Completed Success
     ∨ statusProps = mkStatusProps InProgress Running
     ∨ statusProps = mkStatusProps Scheduled Queued).
Proof.
  unfold onRenderHeaderTitle.
  destruct (isBugBashCompleted bugBash currentTime),
           (isBugBashInProgress bugBash currentTime); cbn;
    repeat split; try (intros; discriminate); try (intros []; discriminate); auto.
Qed.

(** *** Beyond the claims *)

(** The header throws exactly when the bug bash is missing.
    Otherwise its command bar holds new, edit and refresh in this
    order, each of them about the bug bash of the view, and they are
    enabled together, exactly when the status of the items is Ready. *)
Theorem header_commands {IBugBash Date : Type}
    (isBugBashCompleted isBugBashInProgress : IBugBash → Date → bool)
    (bugBashId : string) (status : LoadStatus) (bugBash : option IBugBash)
    (currentTime : Date) :
  let rendered :=
    BugBashViewHeader isBugBashCompleted isBugBashInProgress bugBashId status bugBash
      currentTime in
  (rendered = inl (mkError "Bug Bash is not initialized yet") ↔ bugBash = None)
  ∧ (∀ props,
       rendered = inr props →
       command <$> commandBarItems props = [new; edit; refresh]
       ∧ ∀ item,
           item ∈ commandBarItems props →
           (disabled item = false ↔ status = Ready)
           ∧ headerActionBugBashId (onActivate item) = bugBashId).
Proof.
  cbv zeta. unfold BugBashViewHeader. destruct bugBash as [bugBash |].
  - split; [split; discriminate |].
    intros props [= <-]. cbn [commandBarItems]. split; [reflexivity |].
    intros item Hin. apply list_elem_of_In in Hin. cbn in Hin.
    assert (bool_decide (status ≠ Ready) = false ↔ status = Ready) as Hready.
    { rewrite bool_decide_eq_false. split; [apply dec_stable | by intros ->; auto]. }
    destruct Hin as [<- | [<- | [<- | []]]]; cbn; by split.
  - split; [by split |]. intros props. discriminate.
Qed.

Lemma header_commands_witness :
  let rendered :=
    BugBashViewHeader (λ (_ : unit) (now : nat), false) (λ _ now, true)
      "b1" Loading (Some ()) 10%nat in
  ∃ props,
    rendered = inr props
    ∧ command <$> commandBarItems props = [new; edit; refresh]
    ∧ ∀ item,
        item ∈ commandBarItems props →
        (disabled item = false ↔ Loading = Ready)
        ∧ headerActionBugBashId (onActivate item) = "b1".
Proof.
  intros rendered. eexists. split; [reflexivity |].
  exact (proj2 (header_commands (λ (_ : unit) (now : nat), false) (λ _ now, true)
                  "b1" Loading (Some ()) 10%nat) _ eq_refl).
Defined.

End BugBashViewHeaderFacts.

(** ** The bug bash item table cell *)

Module BugBashItemCellFacts.

Import BugBashItemCell.

(** C7, as stated, fails for the Title column: the title of an
    accepted item whose work item is supplied is read from the work
    item, not from the bug bash item. *)
Lemma title_of_accepted_item_counterexample :
  let bugBashItem : gmap string JsValue :=
    {["title" := JsString "as reported"; "workItemId" := JsNumber 7]} in
  let acceptedWorkItem :=
    mkWorkItem 7 {["System.Title" := JsString "as triaged"]} in
  onRenderBugBashItemCell constants "title" bugBashItem (Some acceptedWorkItem)
  = JsString "as triaged"
  ∧ prop bugBashItem "title" = JsString "as reported"
  ∧ ¬ readsItemItself constants "title" bugBashItem (Some acceptedWorkItem).
Proof.
  intros bugBashItem acceptedWorkItem. split; [reflexivity |]. split; [reflexivity |].
  intros H. specialize (H eq_refl ltac:(discriminate)). discriminate H.
Qed.

(** C7, amended — promotion gating in the cell.  The value depends on
    the work item only when the item is accepted and acceptedWorkItem
    is supplied.  For a work item field key it is then the item's
    workItemId for the ID key and the work item's field of that name
    otherwise, and it is undefined when the item is not accepted or the
    work item is missing.  For any other key except Status it is the
    bug bash item's own property, unless the key is Title, the item is
    accepted and the work item is supplied: then it is the Title field
    of the work item. *)
Theorem cell_value_promotion_gating (C : Constants) (key : string)
    (bugBashItem : gmap string JsValue) (acceptedWorkItem : option WorkItem) :
  let value := onRenderBugBashItemCell C key bugBashItem acceptedWorkItem in
  (isBugBashItemAccepted C bugBashItem = false →
   value = onRenderBugBashItemCell C key bugBashItem None)
  ∧ (isWorkItemFieldName C key = true →
     (isBugBashItemAccepted C bugBashItem = false ∨ acceptedWorkItem = None →
      value = JsUndefined)
     ∧ (∀ workItem,
          isBugBashItemAccepted C bugBashItem = true →
          acceptedWorkItem = Some workItem →
          value = if bool_decide (key = WorkItemFieldNames_ID C)
                  then prop bugBashItem "workItemId"
                  else prop (fields workItem) key))
  ∧ (isWorkItemFieldName C key = false →
     key ≠ BugBashItemFieldNames_Status C →
     (∀ workItem,
        key = BugBashItemFieldNames_Title C →
        isBugBashItemAccepted C bugBashItem = true →
        acceptedWorkItem = Some workItem →
        value = prop (fields workItem) (WorkItemFieldNames_Title C))
     ∧ (key ≠ BugBashItemFieldNames_Title C
        ∨ isBugBashItemAccepted C bugBashItem = false
        ∨ acceptedWorkItem = None →
        value = prop bugBashItem key)).
Proof.
  intros value. subst value. unfold onRenderBugBashItemCell.
  split; [| split].
  - intros ->. rewrite andb_false_r.
    destruct (isWorkItemFieldName C key); [reflexivity |].
    by destruct acceptedWorkItem.
  - intros ->. split.
    + intros [-> | ->]; [reflexivity |].
      by destruct (isBugBashItemAccepted C bugBashItem).
    + intros workItem -> ->. reflexivity.
  - intros -> Hstatus. rewrite (bool_decide_eq_true_2 _ Hstatus). split.
    + intros workItem Htitle -> ->.
      by rewrite (bool_decide_eq_true_2 _ Htitle).
    + intros [Hne | [-> | ->]].
      * rewrite (bool_decide_eq_false_2 _ Hne). reflexivity.
      * rewrite andb_false_r. reflexivity.
      * by destruct (_ && _).
Qed.

Lemma cell_value_promotion_gating_witness :
  let bugBashItem : gmap string JsValue :=
    {["title" := JsString "as reported"; "workItemId" := JsNumber 7;
      "teamId" := JsString "team-1"]} in
  let acceptedWorkItem :=
    mkWorkItem 7 {["System.Title" := JsString "as triaged"]} in
  onRenderBugBashItemCell constants "title" bugBashItem (Some acceptedWorkItem)
  = JsString "as triaged"
  ∧ onRenderBugBashItemCell constants "teamId" bugBashItem (Some acceptedWorkItem)
    = prop bugBashItem "teamId".
Proof.
  intros bugBashItem acceptedWorkItem. split.
  - exact (proj1 (proj2 (proj2
             (cell_value_promotion_gating constants "title" bugBashItem
                (Some acceptedWorkItem))) eq_refl ltac:(discriminate))
             acceptedWorkItem eq_refl eq_refl eq_refl).
  - destruct (cell_value_promotion_gating constants "teamId" bugBashItem
                (Some acceptedWorkItem)) as (_ & _ & H).
    assert ("teamId" ≠ BugBashItemFieldNames_Status constants) as Hstatus
      by discriminate.
    destruct (H eq_refl Hstatus) as [_ Hitem].
    apply Hitem. left. discriminate.
Defined.

(** *** Beyond the claims *)

(** The status cell shows Accepted for an accepted item, also when it
    is rejected as well, Rejected for a rejected item that is not
    accepted, and Pending otherwise; tooltip, icon and colour always
    go together. *)
Theorem status_cell_by_priority (V : ViewConstants) (bugBashItem : gmap string JsValue) :
  let cell := renderStatusCell V bugBashItem in
  (tooltip cell = "Accepted" ↔ isBugBashItemAccepted (names V) bugBashItem = true)
  ∧ (tooltip cell = "Rejected" ↔
     isBugBashItemAccepted (names V) bugBashItem = false
     ∧ isBugBashItemRejected V bugBashItem = true)
  ∧ (tooltip cell = "Pending" ↔
     isBugBashItemAccepted (names V) bugBashItem = false
     ∧ isBugBashItemRejected V bugBashItem = false)
  ∧ (cell = mkStatusCell "Accepted" "Accept" "#107c10"
     ∨ cell = mkStatusCell "Rejected" "Cancel" "#da0a00"
     ∨ cell = mkStatusCell "Pending" "Clock" "#666666").
Proof.
  unfold renderStatusCell.
  destruct (isBugBashItemAccepted (names V) bugBashItem),
           (isBugBashItemRejected V bugBashItem); cbn;
    repeat split; try (intros; discriminate); try (intros []; discriminate); auto.
Qed.




(** The Title column, the two blocks of the function together: an
    item that is not accepted is shown as a link to the item with the
    item's own title; an accepted item whose work item is supplied is
    shown as the work item, with the id, the Title field and the type
    of the work item. *)
Theorem title_cell (V : ViewConstants) (bugBashItem : gmap string JsValue)
    (acceptedWorkItem : option WorkItem) :
  let key := BugBashItemFieldNames_Title (names V) in
  key ≠ BugBashItemFieldNames_Status (names V) →
  isWorkItemFieldName (names V) key = false →
  (isBugBashItemAccepted (names V) bugBashItem = false →
   innerElement V key bugBashItem acceptedWorkItem
   = Renders (AsyncLinkComponent (prop bugBashItem "id") (prop bugBashItem "bugBashId")
                (prop bugBashItem "id") (prop bugBashItem "title")))
  ∧ (∀ workItem,
       isBugBashItemAccepted (names V) bugBashItem = true →
       acceptedWorkItem = Some workItem →
       innerElement V key bugBashItem acceptedWorkItem
       = Renders (WorkItemTitleView (id workItem)
                    (prop (fields workItem) (WorkItemFieldNames_Title (names V)))
                    (prop (fields workItem) (WorkItemFieldNames_WorkItemType V)))).
Proof.
  intros key Hstatus Hwi. subst key. unfold innerElement, onRenderBugBashItemCell.
  rewrite (bool_decide_eq_false_2 _ Hstatus), Hwi.
  rewrite (bool_decide_eq_true_2 (_ = _) eq_refl). split.
  - intros ->. reflexivity.
  - intros workItem -> ->. reflexivity.
Qed.

Lemma title_cell_witness :
  let bugBashItem : gmap string JsValue :=
    {["title" := JsString "as reported"; "workItemId" := JsNumber 7]} in
  let workItem :=
    mkWorkItem 7 {["System.Title" := JsString "as triaged";
                   "System.WorkItemType" := JsString "Bug"]} in
  innerElement viewConstants "title" bugBashItem (Some workItem)
  = Renders (WorkItemTitleView 7 (prop (fields workItem) "System.Title")
               (prop (fields workItem) "System.WorkItemType")).
Proof.
  intros bugBashItem workItem.
  destruct (title_cell viewConstants bugBashItem (Some workItem)) as [_ Haccepted].
  - discriminate.
  - reflexivity.
  - exact (Haccepted workItem eq_refl eq_refl).
Defined.

End BugBashItemCellFacts.
